(** * ChazkiDeliveryWatcher: a shallow embedding of [watch.py]

    The program polls a tracking page, turns the rows of its log table into
    [Entry] records, compares them with the entries of the previous poll,
    sends one message about the new ones and prints the current list.

    Python values are modelled as follows.
    - [str] is [string]; a character stands for one code point below 256.
    - [int] is [Z].
    - [list] is [list]; the [for] loops of the source are folds that follow
      the loop bodies statement by statement.
    - A raised exception is the [Raise] result of the monad [M]; the state at
      the point of the raise is kept, as a [try]-less Python program leaves it.
    - The browser, the console, the clock and the messaging library are the
      outside world: what the program asks of them is appended to a trace of
      [event]s, and what they answer is an argument of the embedded function
      (the snapshot of the page, the outcome of the send, the time of day). *)

From Stdlib Require Import String Ascii List ZArith Lia Bool Permutation.
Import ListNotations.
Open Scope string_scope.

(** ** Python's [repr] on [str]

    The dataclass [Entry] defines no [__str__], so printing an entry and
    formatting it in an f-string both use the generated [__repr__], which
    calls [repr] on each field.  [repr] picks the quote, escapes the quote,
    the backslash, tab, newline and carriage return, and writes every other
    non-printable code point as a lowercase hexadecimal escape. *)
Module PyStr.

Definition hex_digit (n : nat) : ascii :=
  match n with
  | 0 => "0" | 1 => "1" | 2 => "2" | 3 => "3" | 4 => "4" | 5 => "5"
  | 6 => "6" | 7 => "7" | 8 => "8" | 9 => "9" | 10 => "a" | 11 => "b"
  | 12 => "c" | 13 => "d" | 14 => "e" | _ => "f"
  end%char.

(** [str.isprintable] on one code point below 256: the controls
    (0x00-0x1f, 0x7f-0x9f), the no-break space 0xa0 and the soft hyphen
    0xad are not printable; the plain space is. *)
Definition isprintable (c : ascii) : bool :=
  let n := nat_of_ascii c in
  negb (Nat.ltb n 32)
  && negb (Nat.leb 127 n && Nat.leb n 160)
  && negb (Nat.eqb n 173).

Definition contains (c : ascii) (s : string) : bool :=
  existsb (Ascii.eqb c) (list_ascii_of_string s).

Definition dquote : ascii := ascii_of_nat 34.

(** A single quote unless the text has a single quote and no double one. *)
Definition quote_of (s : string) : ascii :=
  if contains "'" s && negb (contains dquote s) then dquote else "'"%char.

Definition backslash : ascii := "\"%char.

Definition escape (q c : ascii) : string :=
  let n := nat_of_ascii c in
  if Ascii.eqb c q || Ascii.eqb c backslash then String backslash (String c "")
  else if Nat.eqb n 9 then String backslash "t"
  else if Nat.eqb n 10 then String backslash "n"
  else if Nat.eqb n 13 then String backslash "r"
  else if isprintable c then String c ""
  else String backslash
         (String "x" (String (hex_digit (n / 16)) (String (hex_digit (n mod 16)) ""))).

Fixpoint escape_all (q : ascii) (s : string) : string :=
  match s with
  | EmptyString => ""
  | String c rest => escape q c ++ escape_all q rest
  end.

Definition repr (s : string) : string :=
  let q := quote_of s in
  String q (escape_all q s ++ String q "").

(** The line feed, as the source's escape writes it. *)
Definition nl : string := String (ascii_of_nat 10) "".

End PyStr.

(** ** The dataclass [Entry] *)

Record Entry : Type := mkEntry {
  date : string;
  location : string;
  message : string
}.

(** The generated [__eq__] compares the tuples of the fields; a tuple
    comparison is the conjunction of the comparisons of its components. *)
Definition astuple (e : Entry) : string * string * string :=
  (date e, location e, message e).

Definition tuple_eq (a b : string * string * string) : bool :=
  let '(a0, a1, a2) := a in
  let '(b0, b1, b2) := b in
  String.eqb a0 b0 && String.eqb a1 b1 && String.eqb a2 b2.

Definition Entry_eq (self other : Entry) : bool :=
  tuple_eq (astuple self) (astuple other).

(** [x in xs] on a list: some element compares equal to [x]. *)
Definition py_in (x : Entry) (xs : list Entry) : bool :=
  existsb (fun y => Entry_eq y x) xs.

Section Repr.

(** [repr] of a [str]; [PyStr.repr] is its instance for code points
    below 256. *)
Variable repr_str : string -> string.

(** The generated [__repr__]. *)
Definition Entry_repr (e : Entry) : string :=
  "Entry(date=" ++ repr_str (date e)
    ++ ", location=" ++ repr_str (location e)
    ++ ", message=" ++ repr_str (message e) ++ ")".

End Repr.

(** ** Exceptions, events and the monad of the program *)

Inductive exn : Type :=
| TimeoutException          (* selenium: the awaited element never appeared *)
| IndexError                (* list index out of range *)
| ValueError                (* time.sleep with a negative length *)
| OverflowError             (* timedelta out of range *)
| SendError (what : string) (* whatever the messaging library raises *).

Inductive event : Type :=
| EvGet (url : string)                               (* driver.get(url) *)
| EvClear                                            (* _clear_console() *)
| EvPrint (line : string)                            (* print(line) *)
| EvSend (phone_no msg : string) (wait_time : Z)     (* pywhatkit.sendwhatmsg_instantly *)
| EvSleep (secs : Z)                                 (* time.sleep(secs) *).

Inductive Res (A : Type) : Type :=
| Ok (a : A)
| Raise (e : exn).
Arguments Ok {A} a.
Arguments Raise {A} e.

Record Watcher : Type := mkWatcher {
  code : string;
  sleep : Z;
  recipient : option string;
  _entries : list Entry;
  _url : string
}.

(** The state a method runs in: the watcher object and what the outside
    world has been asked so far, oldest first. *)
Definition State : Type := Watcher * list event.

Definition M (A : Type) : Type := State -> Res A * State.

Definition ret {A} (a : A) : M A := fun st => (Ok a, st).

Definition bind {A B} (m : M A) (k : A -> M B) : M B :=
  fun st =>
    match m st with
    | (Ok a, st') => k a st'
    | (Raise e, st') => (Raise e, st')
    end.

Definition raise {A} (e : exn) : M A := fun st => (Raise e, st).

Definition emit (ev : event) : M unit :=
  fun st => (Ok tt, (fst st, (snd st ++ [ev])%list)).

Definition get_self : M Watcher := fun st => (Ok (fst st), st).

(** The watcher after [self._entries = es]. *)
Definition with_entries (w : Watcher) (es : list Entry) : Watcher :=
  mkWatcher (code w) (sleep w) (recipient w) es (_url w).

Definition set__entries (es : list Entry) : M unit :=
  fun st => (Ok tt, (with_entries (fst st) es, snd st)).

Notation "x <- m ;; k" := (bind m (fun x => k))
  (at level 61, m at next level, right associativity).
Notation "m ;;; k" := (bind m (fun _ => k))
  (at level 61, right associativity).

(** ** The program *)

(** [xs[i]] for a non-negative literal index. *)
Definition getitem {A} (xs : list A) (i : nat) : M A :=
  match nth_error xs i with
  | Some x => ret x
  | None => raise IndexError
  end.

(** [time.sleep(secs)]: a negative length is refused. *)
Definition time_sleep (secs : Z) : M unit :=
  if (secs <? 0)%Z then raise ValueError else emit (EvSleep secs).

(** [pywhatkit.sendwhatmsg_instantly(phone_no, msg, wait_time)]: the call is
    recorded, then the library returns or raises as [outcome] says. *)
Definition sendwhatmsg_instantly
    (outcome : option exn) (phone_no msg : string) (wait_time : Z) : M unit :=
  emit (EvSend phone_no msg wait_time) ;;;
  match outcome with
  | Some e => raise e
  | None => ret tt
  end.

(** What the browser shows at one poll.  A row is the list of the texts of
    its [td] cells, a log table the list of its [tr] rows, and a page the
    list of its elements with id [logs], in document order. *)
Definition Row : Type := list string.
Definition Logs : Type := list Row.
Definition Page : Type := list Logs.

(** [_safe_find(driver, *args, method=...)]: the wait ends in
    [TimeoutException] unless some element is located; then the [method] is
    called on what was located.  [located] is what the locator matches on the
    snapshot of the page. *)
Definition _safe_find_elements {A} (located : list A) : M (list A) :=
  match located with
  | [] => raise TimeoutException
  | _ :: _ => ret located
  end.

Definition _safe_find_element {A} (located : list A) : M A :=
  match located with
  | [] => raise TimeoutException
  | first :: _ => ret first
  end.

(** [_parse_entry(columns)] *)
Definition _parse_entry (columns : Row) : M Entry :=
  date <- getitem columns 0 ;;
  time <- getitem columns 1 ;;
  location <- getitem columns 2 ;;
  message <- getitem columns 3 ;;
  ret (mkEntry (date ++ " " ++ time) location message).

(** The generated [__init__] of [Watcher], without the driver.  The field
    [_timedelta] is [timedelta(seconds=sleep)], which exists only for a number
    of days of magnitude at most 999999999; it is used as [sleep] seconds. *)
Definition timedelta_ok (seconds : Z) : bool :=
  ((-999999999 <=? seconds / 86400) && (seconds / 86400 <=? 999999999))%Z.

Definition Watcher_init
    (code : string) (sleep : Z) (recipient : option string) : Res Watcher :=
  if timedelta_ok sleep
  then Ok (mkWatcher code sleep recipient []
             ("https://apps.chazki.com/tracker/" ++ code))
  else Raise OverflowError.

(** Truth value of [self.recipient]: [None] and the empty text are false. *)
Definition truthy (r : option string) : bool :=
  match r with
  | Some s => negb (s =? "")
  | None => false
  end.

(** The rows loop of [_find_entries], [entries] being the list built so far. *)
Fixpoint rows_loop (rows : list Row) (entries : list Entry) : M (list Entry) :=
  match rows with
  | [] => ret entries
  | columns :: rest =>
      match columns with
      | [] => rows_loop rest entries
      | _ :: _ =>
          entry <- _parse_entry columns ;;
          rows_loop rest (entries ++ [entry])%list
      end
  end.

(** [Watcher._find_entries] *)
Definition _find_entries (page : Page) : M (list Entry) :=
  self <- get_self ;;
  emit (EvGet (_url self)) ;;;
  logs <- _safe_find_element page ;;
  rows <- _safe_find_elements logs ;;
  rows_loop rows [].

(** The loop of the setter: the entries of [new_entries] that are not in
    [old], appended one by one. *)
Definition added_loop (old new_entries : list Entry) : list Entry :=
  fold_left
    (fun added entry =>
       if negb (py_in entry old) then (added ++ [entry])%list else added)
    new_entries [].

Section Program.

Variable repr_str : string -> string.

(** [datetime.strftime] with the format of the source, on a clock read in
    seconds. *)
Variable strftime : Z -> string.

(** The loop of [_notify]: one line per entry appended to [msg]. *)
Definition msg_loop (new_entries : list Entry) (msg : string) : string :=
  fold_left
    (fun msg entry => msg ++ "  - " ++ Entry_repr repr_str entry ++ PyStr.nl)
    new_entries msg.

(** [Watcher._notify] *)
Definition _notify (outcome : option exn) (new_entries : list Entry) : M unit :=
  self <- get_self ;;
  match recipient self with
  | Some phone_no =>
      if phone_no =? "" then ret tt
      else
        let msg := "Update in your delivery!" ++ PyStr.nl ++ PyStr.nl in
        let msg := msg_loop new_entries msg in
        let msg := msg ++ PyStr.nl ++ "URL: " ++ _url self in
        emit (EvPrint "Sending notification...") ;;;
        sendwhatmsg_instantly outcome phone_no msg 20 ;;;
        emit (EvPrint "Notification sent...") ;;;
        time_sleep 3
  | None => ret tt
  end.

(** The property [Watcher.entries]: getter and setter. *)
Definition entries : M (list Entry) :=
  self <- get_self ;;
  ret (_entries self).

Definition entries_setter
    (outcome : option exn) (new_entries : list Entry) : M unit :=
  self <- get_self ;;
  let added := added_loop (_entries self) new_entries in
  match added with
  | [] => ret tt
  | _ :: _ => _notify outcome added
  end ;;;
  set__entries new_entries.

Fixpoint print_loop (es : list Entry) : M unit :=
  match es with
  | [] => ret tt
  | entry :: rest => emit (EvPrint (Entry_repr repr_str entry)) ;;; print_loop rest
  end.

(** [Watcher._print_entries], the clock reading [curdate]. *)
Definition _print_entries (curdate : Z) : M unit :=
  self <- get_self ;;
  let next_update := (curdate + sleep self)%Z in
  emit EvClear ;;;
  emit (EvPrint ("URL: " ++ _url self ++ PyStr.nl)) ;;;
  es <- entries ;;
  print_loop es ;;;
  emit (EvPrint "") ;;;
  emit (EvPrint ("Last refresh at: " ++ strftime curdate)) ;;;
  emit (EvPrint ("Next refresh at " ++ strftime next_update)).

(** What the outside world answers during one poll. *)
Record Answers : Type := mkAnswers {
  page : Page;
  send_outcome : option exn;
  now : Z
}.

(** One turn of the loop of [Watcher.watch]. *)
Definition cycle (a : Answers) : M unit :=
  found <- _find_entries (page a) ;;
  entries_setter (send_outcome a) found ;;;
  _print_entries (now a) ;;;
  self <- get_self ;;
  time_sleep (sleep self).

(** [Watcher.watch] for as many polls as [world] has answers. *)
Fixpoint watch (world : list Answers) : M unit :=
  match world with
  | [] => ret tt
  | a :: rest => cycle a ;;; watch rest
  end.

End Program.

(** ** Definitions that state the properties *)

(** Structural equality of entries is decidable. *)
Definition Entry_eq_dec (a b : Entry) : {a = b} + {a <> b}.
Proof.
  decide equality; apply string_dec.
Defined.

(** The diff in the words of the specification: the elements of [current]
    that are equal to no element of [prior], in the order of [current]. *)
Definition added_spec (prior current : list Entry) : list Entry :=
  filter (fun e => if in_dec Entry_eq_dec e prior then false else true) current.

(** What [_parse_entry] returns, without the state. *)
Definition parse_columns (columns : Row) : Res Entry :=
  match columns with
  | d :: t :: l :: m :: _ => Ok (mkEntry (d ++ " " ++ t) l m)
  | _ => Raise IndexError
  end.

(** What the rows loop returns, without the state. *)
Fixpoint parse_rows (rows : list Row) (entries : list Entry) : Res (list Entry) :=
  match rows with
  | [] => Ok entries
  | [] :: rest => parse_rows rest entries
  | columns :: rest =>
      match parse_columns columns with
      | Ok entry => parse_rows rest (entries ++ [entry])%list
      | Raise e => Raise e
      end
  end.

Definition has_cells (columns : Row) : bool :=
  match columns with
  | [] => false
  | _ :: _ => true
  end.

(** The entry of a row of at least four cells. *)
Definition entry_of_row (columns : Row) : Entry :=
  mkEntry (nth 0 columns "" ++ " " ++ nth 1 columns "")
          (nth 2 columns "") (nth 3 columns "").

(** A row the reader can take: no cell, or at least four. *)
Definition row_ok (columns : Row) : Prop :=
  columns = [] \/ 4 <= length columns.

(** The page reader in the words of the specification: one entry per row
    with a cell, the date being the date cell followed by the time cell. *)
Definition entry_of_row_spec (columns : Row) : Entry :=
  mkEntry (nth 0 columns "" ++ nth 1 columns "")
          (nth 2 columns "") (nth 3 columns "").

Definition page_reader_spec (rows : list Row) : list Entry :=
  map entry_of_row_spec (filter has_cells rows).

(** The representation of an entry in the words of the specification: the
    three fields in order, with a separator between them. *)
Definition entry_shape_spec (sep : string) (e : Entry) : string :=
  date e ++ sep ++ location e ++ sep ++ message e.

Definition is_send (ev : event) : bool :=
  match ev with
  | EvSend _ _ _ => true
  | _ => false
  end.

Section Message.

Variable repr_str : string -> string.

(** The lines of the message, one per entry. *)
Fixpoint entry_lines (es : list Entry) : string :=
  match es with
  | [] => ""
  | e :: rest => ("  - " ++ Entry_repr repr_str e ++ PyStr.nl) ++ entry_lines rest
  end.

(** Header, one line per entry, trailer with the address of the tracker. *)
Definition notify_msg (url : string) (es : list Entry) : string :=
  ("Update in your delivery!" ++ PyStr.nl ++ PyStr.nl)
    ++ entry_lines es
    ++ (PyStr.nl ++ "URL: " ++ url).

End Message.

(** What a poll leaves in the trace, written out. *)
Section Traces.

Variable repr_str : string -> string.
Variable strftime : Z -> string.

Definition outcome_res (outcome : option exn) : Res unit :=
  match outcome with
  | Some e => Raise e
  | None => Ok tt
  end.

Definition phone_of (w : Watcher) : string :=
  match recipient w with
  | Some phone_no => phone_no
  | None => ""
  end.

(** The events of [_notify] when the recipient is set. *)
Definition notify_events
    (outcome : option exn) (w : Watcher) (es : list Entry) : list event :=
  [EvPrint "Sending notification...";
   EvSend (phone_of w) (notify_msg repr_str (_url w) es) 20]
  ++ match outcome with
     | Some _ => []
     | None => [EvPrint "Notification sent..."; EvSleep 3]
     end.

(** The setter notifies when something was added and the recipient is
    set. *)
Definition notifies (w : Watcher) (new_entries : list Entry) : bool :=
  match added_loop (_entries w) new_entries with
  | [] => false
  | _ :: _ => truthy (recipient w)
  end.

Definition setter_events
    (outcome : option exn) (w : Watcher) (new_entries : list Entry) : list event :=
  if notifies w new_entries
  then notify_events outcome w (added_loop (_entries w) new_entries)
  else [].

Definition print_events (w : Watcher) (curdate : Z) : list event :=
  [EvClear; EvPrint ("URL: " ++ _url w ++ PyStr.nl)]
  ++ map (fun e => EvPrint (Entry_repr repr_str e)) (_entries w)
  ++ [EvPrint "";
      EvPrint ("Last refresh at: " ++ strftime curdate);
      EvPrint ("Next refresh at " ++ strftime (curdate + sleep w)%Z)].

End Traces.

(** Sample data. *)
Module Sample.

Definition e1 : Entry := mkEntry "D1 T1" "L1" "M1".
Definition e2 : Entry := mkEntry "D2 T2" "L2" "M2".

Definition watcher : Watcher :=
  mkWatcher "ABC" 300 (Some "+5491100000000") []
            "https://apps.chazki.com/tracker/ABC".

Definition rows : Logs :=
  [ []; ["D1"; "T1"; "L1"; "M1"]; ["D2"; "T2"; "L2"; "M2"; "extra"] ].

Definition page : Page := [rows].

Definition strftime (t : Z) : string :=
  if (t =? 0)%Z then "2022-01-01 00:00:00" else "2022-01-01 00:05:00".

Definition answers : Answers := mkAnswers page None 0.

Definition failing_send : Answers := mkAnswers page (Some (SendError "no session")) 0.

End Sample.

(** A row the reader takes and cannot parse: one to three cells. *)
Definition short_row (columns : Row) : Prop := 1 <= length columns <= 3.

(** ** Reading traces *)

Definition count_sends (evs : list event) : nat :=
  length (filter is_send evs).

(** The addresses the browser was sent to, oldest first. *)
Definition get_urls (evs : list event) : list string :=
  flat_map (fun ev => match ev with EvGet url => [url] | _ => [] end) evs.

(** The texts handed to the send, oldest first. *)
Definition sent_msgs (evs : list event) : list string :=
  flat_map (fun ev => match ev with EvSend _ msg _ => [msg] | _ => [] end) evs.

(** Two watchers that differ at most in the entries they hold. *)
Definition same_config (w w' : Watcher) : Prop :=
  code w' = code w /\ sleep w' = sleep w
  /\ recipient w' = recipient w /\ _url w' = _url w.

(** ** The entry point *)

(** The browser a driver factory starts. *)
Inductive Driver : Type :=
| Chrome (headless : bool)
| Firefox (headless : bool).

(** What happens before the loop: texts printed, driver binaries installed
    by the manager of a browser, browsers started. *)
Inductive boot_event : Type :=
| BootPrint (line : string)
| BootInstall (manager : string)
| BootLaunch (driver : Driver).

(** [_chrome_driver(headless)]: the options are made first, with the
    warning when headless, then the driver is installed and started. *)
Definition _chrome_driver (headless : bool) : list boot_event * Driver :=
  (((if headless
    then [BootPrint
            "WARNING: Headless mode on Chrome might break. Turn off with -H parameter."]
    else [])
   ++ [BootInstall "ChromeDriverManager"; BootLaunch (Chrome headless)])%list,
   Chrome headless).

(** [_firefox_driver(headless)] *)
Definition _firefox_driver (headless : bool) : list boot_event * Driver :=
  ([BootInstall "GeckoDriverManager"; BootLaunch (Firefox headless)],
   Firefox headless).

(** The dictionary [DRIVERS], in the order it is written. *)
Definition DRIVERS : list (string * (bool -> list boot_event * Driver)) :=
  [("chrome", _chrome_driver); ("firefox", _firefox_driver)].

(** [d[key]] on a dictionary written as a list of items. *)
Fixpoint dict_get {V} (d : list (string * V)) (key : string) : option V :=
  match d with
  | [] => None
  | (k, v) :: rest => if k =? key then Some v else dict_get rest key
  end.

(** The namespace [parse_args] returns: one field per argument of
    [parser()]. *)
Record Namespace : Type := mkNamespace {
  arg_code : string;
  arg_browser : string;
  arg_timeout : Z;
  arg_notify : string;
  arg_headless : bool
}.


(** How [main] ends: the lookup of the browser fails, the construction of
    the watcher fails, or the loop ran and left a result and a state. *)
Inductive MainRes : Type :=
| MainKeyError (key : string)
| MainInitError (e : exn)
| MainLoop (r : Res unit * State).

Section Main.

Variable repr_str : string -> string.
Variable strftime : Z -> string.

(** [main()] after [parse_args], for as many polls as [world] has answers:
    what happened before the loop, and how it ended. *)
Definition main (args : Namespace) (world : list Answers)
  : list boot_event * MainRes :=
  match dict_get DRIVERS (arg_browser args) with
  | None => ([], MainKeyError (arg_browser args))
  | Some driver_factory =>
      let (boot, driver) := driver_factory (arg_headless args) in
      match Watcher_init (arg_code args) (arg_timeout args) (Some (arg_notify args)) with
      | Raise e => (boot, MainInitError e)
      | Ok watcher => (boot, MainLoop (watch repr_str strftime world (watcher, [])))
      end
  end.

End Main.

(** ** Equality of entries and membership *)

Lemma Entry_eq_true_iff (a b : Entry) : Entry_eq a b = true <-> a = b.
Proof.
  destruct a as [d l m], b as [d' l' m'].
  unfold Entry_eq, astuple, tuple_eq; simpl.
  rewrite !andb_true_iff, !String.eqb_eq.
  split.
  - intros [[-> ->] ->]; reflexivity.
  - intros H; injection H as -> -> ->; auto.
Qed.

Lemma Entry_eq_false_iff (a b : Entry) : Entry_eq a b = false <-> a <> b.
Proof.
  rewrite <- Entry_eq_true_iff. destruct (Entry_eq a b); split; congruence.
Qed.

Lemma py_in_In (x : Entry) (xs : list Entry) : py_in x xs = true <-> In x xs.
Proof.
  unfold py_in. rewrite existsb_exists. split.
  - intros [y [Hy He]]. apply Entry_eq_true_iff in He. subst; assumption.
  - intros H. exists x. split; [assumption | apply Entry_eq_true_iff; reflexivity].
Qed.

Lemma py_in_in_dec (x : Entry) (xs : list Entry) :
  negb (py_in x xs) = if in_dec Entry_eq_dec x xs then false else true.
Proof.
  destruct (in_dec Entry_eq_dec x xs) as [H | H].
  - apply py_in_In in H. rewrite H. reflexivity.
  - destruct (py_in x xs) eqn:E; [| reflexivity].
    apply py_in_In in E. contradiction.
Qed.

(** ** The loop of the setter is a filter *)

Lemma added_loop_acc (old new_entries acc : list Entry) :
  fold_left
    (fun added entry =>
       if negb (py_in entry old) then (added ++ [entry])%list else added)
    new_entries acc
  = (acc ++ filter (fun e => negb (py_in e old)) new_entries)%list.
Proof.
  revert acc. induction new_entries as [| e rest IH]; intros acc; simpl.
  - now rewrite app_nil_r.
  - rewrite IH. destruct (negb (py_in e old)); simpl.
    + now rewrite <- app_assoc.
    + reflexivity.
Qed.

Lemma added_loop_filter (old new_entries : list Entry) :
  added_loop old new_entries = filter (fun e => negb (py_in e old)) new_entries.
Proof.
  unfold added_loop. now rewrite added_loop_acc.
Qed.

Lemma added_loop_In (old new_entries : list Entry) (e : Entry) :
  In e (added_loop old new_entries) <-> In e new_entries /\ ~ In e old.
Proof.
  rewrite added_loop_filter, filter_In, negb_true_iff.
  split; intros [H1 H2]; split; try assumption.
  - intros H. apply py_in_In in H. congruence.
  - destruct (py_in e old) eqn:E; [| reflexivity].
    apply py_in_In in E. contradiction.
Qed.

Lemma added_loop_nil_iff (old new_entries : list Entry) :
  added_loop old new_entries = [] <-> incl new_entries old.
Proof.
  split.
  - intros H e He. destruct (in_dec Entry_eq_dec e old) as [Hin | Hin]; [assumption |].
    assert (In e (added_loop old new_entries)) as Hadd
      by (apply added_loop_In; split; assumption).
    rewrite H in Hadd. destruct Hadd.
  - intros H. destruct (added_loop old new_entries) as [| e rest] eqn:E; [reflexivity |].
    assert (In e (added_loop old new_entries)) as Hadd by (rewrite E; left; reflexivity).
    apply added_loop_In in Hadd. destruct Hadd as [H1 H2].
    exfalso. apply H2, H, H1.
Qed.

Lemma count_occ_filter_keep (p : Entry -> bool) (xs : list Entry) (e : Entry) :
  p e = true ->
  count_occ Entry_eq_dec (filter p xs) e = count_occ Entry_eq_dec xs e.
Proof.
  intros Hp. induction xs as [| x rest IH]; simpl; [reflexivity |].
  destruct (Entry_eq_dec x e) as [-> | Hne].
  - rewrite Hp. simpl. destruct (Entry_eq_dec e e); [| contradiction].
    now rewrite IH.
  - destruct (p x); simpl; [| assumption].
    destruct (Entry_eq_dec x e); [contradiction | assumption].
Qed.

(** C8: two entries compare equal exactly when their three fields are the
    same texts, whatever objects hold them, and an entry with one field
    changed compares unequal to the original. *)
Theorem Entry_eq_structural :
  forall a b : Entry,
    (Entry_eq a b = true <->
       date a = date b /\ location a = location b /\ message a = message b)
    /\ (forall d, d <> date a ->
          Entry_eq a (mkEntry d (location a) (message a)) = false)
    /\ (forall l, l <> location a ->
          Entry_eq a (mkEntry (date a) l (message a)) = false)
    /\ (forall m, m <> message a ->
          Entry_eq a (mkEntry (date a) (location a) m) = false).
Proof.
  intros a b. split; [| repeat split].
  - rewrite Entry_eq_true_iff. split.
    + intros ->. auto.
    + destruct a, b; simpl. intros (-> & -> & ->). reflexivity.
  - intros d Hd. apply Entry_eq_false_iff. destruct a; simpl in *. congruence.
  - intros l Hl. apply Entry_eq_false_iff. destruct a; simpl in *. congruence.
  - intros m Hm. apply Entry_eq_false_iff. destruct a; simpl in *. congruence.
Qed.

(** C1: the list the setter computes is the list of the entries of
    [current] that are equal to no entry of [prior], in the order of
    [current]; every occurrence is tested on its own, so an entry absent from
    [prior] is reported as many times as it occurs in [current]. *)
Theorem added_is_diff :
  forall prior current : list Entry,
    added_loop prior current = added_spec prior current
    /\ (forall e, In e (added_loop prior current) <-> In e current /\ ~ In e prior)
    /\ (forall e, ~ In e prior ->
          count_occ Entry_eq_dec (added_loop prior current) e
          = count_occ Entry_eq_dec current e)
    /\ (forall e, ~ In e prior -> added_loop prior [e; e] = [e; e]).
Proof.
  intros prior current. split; [| split; [| split]].
  - rewrite added_loop_filter. unfold added_spec.
    apply filter_ext. intros e. apply py_in_in_dec.
  - intros e. apply added_loop_In.
  - intros e He. rewrite added_loop_filter.
    apply count_occ_filter_keep.
    destruct (py_in e prior) eqn:E; [| reflexivity].
    apply py_in_In in E. contradiction.
  - intros e He. rewrite added_loop_filter. simpl.
    destruct (py_in e prior) eqn:E; [| reflexivity].
    apply py_in_In in E. contradiction.
Qed.

(** ** The page reader *)

Lemma _parse_entry_columns (columns : Row) (st : State) :
  _parse_entry columns st = (parse_columns columns, st).
Proof.
  destruct columns as [| d [| t [| l [| m rest]]]]; reflexivity.
Qed.

Lemma rows_loop_parse_rows (rows : list Row) (acc : list Entry) (st : State) :
  rows_loop rows acc st = (parse_rows rows acc, st).
Proof.
  revert acc.
  induction rows as [| columns rest IH]; intros acc; cbn -[parse_columns _parse_entry].
  - reflexivity.
  - destruct columns as [| c cs]; [apply IH |].
    unfold bind. rewrite _parse_entry_columns.
    destruct (parse_columns (c :: cs)); [apply IH | reflexivity].
Qed.

Lemma parse_columns_ok (columns : Row) :
  4 <= length columns -> parse_columns columns = Ok (entry_of_row columns).
Proof.
  destruct columns as [| d [| t [| l [| m rest]]]]; simpl; try lia.
  reflexivity.
Qed.

Lemma parse_columns_short (columns : Row) :
  length columns < 4 -> parse_columns columns = Raise IndexError.
Proof.
  destruct columns as [| d [| t [| l [| m rest]]]]; simpl; try lia; reflexivity.
Qed.

Lemma parse_rows_ok (rows : list Row) (acc : list Entry) :
  Forall row_ok rows ->
  parse_rows rows acc = Ok (acc ++ map entry_of_row (filter has_cells rows))%list.
Proof.
  intros H. revert acc.
  induction H as [| columns rest Hc Hrest IH]; intros acc; cbn -[parse_columns].
  - now rewrite app_nil_r.
  - destruct columns as [| c cs]; cbn -[parse_columns].
    + apply IH.
    + destruct Hc as [Hc | Hc]; [discriminate |].
      rewrite (parse_columns_ok (c :: cs) Hc), IH, <- app_assoc. reflexivity.
Qed.

Lemma parse_rows_short (pre post : list Row) (columns : Row) (acc : list Entry) :
  Forall row_ok pre ->
  1 <= length columns <= 3 ->
  parse_rows (pre ++ columns :: post) acc = Raise IndexError.
Proof.
  intros H Hlen. revert acc.
  induction H as [| r rest Hr Hrest IH]; intros acc; cbn -[parse_columns].
  - destruct columns as [| c cs]; [simpl in Hlen; lia |].
    rewrite parse_columns_short by lia. reflexivity.
  - destruct r as [| c cs]; [apply IH |].
    destruct Hr as [Hr | Hr]; [discriminate |].
    rewrite (parse_columns_ok (c :: cs) Hr). apply IH.
Qed.

Lemma _find_entries_rows (rows : Logs) (others : list Logs) (w : Watcher) (tr : list event) :
  rows <> [] ->
  _find_entries (rows :: others) (w, tr)
  = (parse_rows rows [], (w, (tr ++ [EvGet (_url w)])%list)).
Proof.
  intros Hrows. destruct rows as [| r rest]; [contradiction |].
  unfold _find_entries, bind, get_self, emit, _safe_find_element,
    _safe_find_elements, ret.
  cbn -[rows_loop parse_rows]. apply rows_loop_parse_rows.
Qed.

Lemma _find_entries_state (page : Page) (w : Watcher) (tr : list event) :
  snd (_find_entries page (w, tr)) = (w, (tr ++ [EvGet (_url w)])%list).
Proof.
  destruct page as [| rows others]; [reflexivity |].
  destruct rows as [| r rest]; [reflexivity |].
  rewrite _find_entries_rows by discriminate. reflexivity.
Qed.

(** C7, as the code has it: when the table has a row and every row has no
    cell or at least four, the reader returns one entry per row that has a
    cell, in the order of the rows; the date of an entry is the date cell, a
    space and the time cell. *)
Theorem find_entries_rows_in_order :
  forall (rows : Logs) (others : list Logs) (w : Watcher) (tr : list event),
    rows <> [] ->
    Forall row_ok rows ->
    fst (_find_entries (rows :: others) (w, tr))
    = Ok (map entry_of_row (filter has_cells rows))
    /\ (forall columns,
          date (entry_of_row columns) = nth 0 columns "" ++ " " ++ nth 1 columns "").
Proof.
  intros rows others w tr Hne Hok. split.
  - rewrite _find_entries_rows by assumption. simpl.
    now rewrite parse_rows_ok.
  - reflexivity.
Qed.

Lemma find_entries_rows_in_order_witness :
  fst (_find_entries Sample.page (Sample.watcher, []))
  = Ok [Sample.e1; Sample.e2].
Proof.
  refine (proj1 (find_entries_rows_in_order Sample.rows [] Sample.watcher [] _ _)).
  - discriminate.
  - constructor; [left; reflexivity |].
    constructor; [right; simpl; lia |].
    constructor; [right; simpl; lia | constructor].
Defined.

(** C7, as the claim has it, fails: the date is not the two cells put side
    by side, a row of one cell makes the whole read fail instead of giving
    an entry, and a table without rows ends in a timeout instead of the empty
    list. *)
Lemma page_reader_spec_counterexample :
  fst (_find_entries [[["D"; "T"; "L"; "M"]]] (Sample.watcher, []))
    <> Ok (page_reader_spec [["D"; "T"; "L"; "M"]])
  /\ fst (_find_entries [[["D"]]] (Sample.watcher, [])) = Raise IndexError
  /\ fst (_find_entries [[]] (Sample.watcher, [])) = Raise TimeoutException.
Proof.
  split; [| split].
  - vm_compute. intros H. discriminate H.
  - reflexivity.
  - reflexivity.
Qed.

(** C10: parsing a row succeeds exactly when the row has at least four
    cells.  A row of one to three cells is not skipped: parsing it raises
    [IndexError] and the read fails with it.  Only rows without a cell are
    skipped, and the cells after the fourth do not reach the entry. *)
Theorem parse_entry_needs_four_cells :
  forall (pre post : list Row) (columns : Row) (others : list Logs)
         (w : Watcher) (tr : list event),
    Forall row_ok pre ->
    1 <= length columns <= 3 ->
    fst (_find_entries ((pre ++ columns :: post)%list :: others) (w, tr))
    = Raise IndexError
    /\ (forall st, _parse_entry columns st = (Raise IndexError, st))
    /\ (forall cols st,
          (exists e, _parse_entry cols st = (Ok e, st)) <-> 4 <= length cols)
    /\ (forall c0 c1 c2 c3 extra st,
          _parse_entry (c0 :: c1 :: c2 :: c3 :: extra) st
          = (Ok (mkEntry (c0 ++ " " ++ c1) c2 c3), st))
    /\ (forall rest acc st, rows_loop ([] :: rest) acc st = rows_loop rest acc st).
Proof.
  intros pre post columns others w tr Hpre Hlen.
  split; [| split; [| split; [| split]]].
  - rewrite _find_entries_rows by (destruct pre; discriminate). simpl.
    now apply parse_rows_short.
  - intros st. rewrite _parse_entry_columns, parse_columns_short by lia. reflexivity.
  - intros cols st. rewrite _parse_entry_columns. split.
    + intros [e He]. destruct (Nat.lt_ge_cases (length cols) 4) as [Hlt | Hge]; [| assumption].
      rewrite parse_columns_short in He by assumption. discriminate.
    + intros H. exists (entry_of_row cols). now rewrite parse_columns_ok.
  - reflexivity.
  - reflexivity.
Qed.

Lemma parse_entry_needs_four_cells_witness :
  fst (_find_entries [[ []; ["D1"; "T1"; "L1"; "M1"]; ["D2"; "T2"] ]] (Sample.watcher, []))
  = Raise IndexError.
Proof.
  refine (proj1 (parse_entry_needs_four_cells
                   [ []; ["D1"; "T1"; "L1"; "M1"] ] [] ["D2"; "T2"] []
                   Sample.watcher [] _ _)).
  - constructor; [left; reflexivity |].
    constructor; [right; simpl; lia | constructor].
  - simpl; lia.
Defined.

(** ** Texts and traces *)

Lemma str_app_assoc (a b c : string) : (a ++ b) ++ c = a ++ (b ++ c).
Proof.
  induction a as [| ch a IH]; simpl; [reflexivity | now rewrite IH].
Qed.

Lemma str_app_nil_r (a : string) : a ++ "" = a.
Proof.
  induction a as [| ch a IH]; simpl; [reflexivity | now rewrite IH].
Qed.

Lemma truthy_phone (w : Watcher) :
  truthy (recipient w) = true ->
  recipient w = Some (phone_of w) /\ (phone_of w =? "") = false.
Proof.
  unfold truthy, phone_of. destruct (recipient w) as [r |]; [| discriminate].
  intros H. apply negb_true_iff in H. auto.
Qed.

Lemma existsb_is_send_app (xs ys : list event) :
  existsb is_send (xs ++ ys) = existsb is_send xs || existsb is_send ys.
Proof.
  apply existsb_app.
Qed.

Section Runs.

Variable repr_str : string -> string.
Variable strftime : Z -> string.

Lemma msg_loop_lines (es : list Entry) (msg : string) :
  msg_loop repr_str es msg = msg ++ entry_lines repr_str es.
Proof.
  unfold msg_loop. revert msg.
  induction es as [| e rest IH]; intros msg; cbn [fold_left entry_lines].
  - now rewrite str_app_nil_r.
  - rewrite IH, !str_app_assoc. reflexivity.
Qed.

Lemma notify_msg_loop (url : string) (es : list Entry) :
  msg_loop repr_str es ("Update in your delivery!" ++ PyStr.nl ++ PyStr.nl)
    ++ PyStr.nl ++ "URL: " ++ url
  = notify_msg repr_str url es.
Proof.
  rewrite msg_loop_lines. unfold notify_msg. now rewrite str_app_assoc.
Qed.

Lemma _notify_unset (outcome : option exn) (es : list Entry) (w : Watcher) (tr : list event) :
  truthy (recipient w) = false ->
  _notify repr_str outcome es (w, tr) = (Ok tt, (w, tr)).
Proof.
  unfold _notify, bind, get_self, truthy; simpl.
  destruct (recipient w) as [r |]; [| reflexivity].
  intros H. apply negb_false_iff in H. rewrite H. reflexivity.
Qed.

Lemma _notify_set (outcome : option exn) (es : list Entry) (w : Watcher) (tr : list event) :
  truthy (recipient w) = true ->
  _notify repr_str outcome es (w, tr)
  = (outcome_res outcome, (w, tr ++ notify_events repr_str outcome w es)%list).
Proof.
  intros H. destruct (truthy_phone w H) as [Hr Hne].
  unfold _notify, bind, get_self; cbn [fst snd]. rewrite Hr, Hne.
  cbv zeta. rewrite notify_msg_loop.
  unfold sendwhatmsg_instantly, time_sleep, bind, emit, notify_events, raise, ret.
  change (3 <? 0)%Z with false. cbn [fst snd].
  destruct outcome as [e |]; cbn [outcome_res fst snd];
    rewrite <- ?app_assoc; reflexivity.
Qed.

Lemma notifies_true (w : Watcher) (new_entries : list Entry) :
  notifies w new_entries = true <->
  added_loop (_entries w) new_entries <> [] /\ truthy (recipient w) = true.
Proof.
  unfold notifies. destruct (added_loop (_entries w) new_entries); split.
  - discriminate.
  - intros [H _]. contradiction.
  - intros H. split; [discriminate | assumption].
  - intros [_ H]. assumption.
Qed.

Lemma notifies_false (w : Watcher) (new_entries : list Entry) :
  notifies w new_entries = false <->
  added_loop (_entries w) new_entries = [] \/ truthy (recipient w) = false.
Proof.
  unfold notifies. destruct (added_loop (_entries w) new_entries); split; auto.
  intros [H | H]; [discriminate | assumption].
Qed.

(** The setter, run: it fails exactly when it notifies and the send
    raises, and then the watcher is as it was. *)
Lemma entries_setter_run
    (outcome : option exn) (new_entries : list Entry) (w : Watcher) (tr : list event) :
  entries_setter repr_str outcome new_entries (w, tr)
  = if notifies w new_entries
    then match outcome with
         | Some e =>
             (Raise e, (w, tr ++ setter_events repr_str outcome w new_entries)%list)
         | None =>
             (Ok tt, (with_entries w new_entries,
                      tr ++ setter_events repr_str outcome w new_entries)%list)
         end
    else (Ok tt, (with_entries w new_entries, tr)).
Proof.
  unfold setter_events. destruct (notifies w new_entries) eqn:Hn.
  - apply notifies_true in Hn. destruct Hn as [Hadd Hr].
    unfold entries_setter, bind, get_self; simpl.
    destruct (added_loop (_entries w) new_entries) as [| e rest] eqn:E;
      [contradiction |].
    rewrite (_notify_set outcome (e :: rest) w tr Hr).
    destruct outcome; reflexivity.
  - apply notifies_false in Hn.
    unfold entries_setter, bind, get_self; simpl.
    destruct (added_loop (_entries w) new_entries) as [| e rest] eqn:E.
    + reflexivity.
    + destruct Hn as [Hn | Hn]; [discriminate |].
      rewrite (_notify_unset outcome (e :: rest) w tr Hn). reflexivity.
Qed.

Lemma print_loop_run (es : list Entry) (w : Watcher) (tr : list event) :
  print_loop repr_str es (w, tr)
  = (Ok tt, (w, tr ++ map (fun e => EvPrint (Entry_repr repr_str e)) es)%list).
Proof.
  revert tr. induction es as [| e rest IH]; intros tr; simpl.
  - now rewrite app_nil_r.
  - unfold bind, emit; simpl. rewrite IH, <- app_assoc. reflexivity.
Qed.

Lemma _print_entries_run (curdate : Z) (w : Watcher) (tr : list event) :
  _print_entries repr_str strftime curdate (w, tr)
  = (Ok tt, (w, tr ++ print_events repr_str strftime w curdate)%list).
Proof.
  unfold _print_entries, entries, bind, get_self, emit, ret; simpl.
  rewrite print_loop_run. simpl.
  unfold print_events. rewrite <- !app_assoc. reflexivity.
Qed.

Lemma print_events_no_send (w : Watcher) (curdate : Z) :
  existsb is_send (print_events repr_str strftime w curdate) = false.
Proof.
  unfold print_events. rewrite !existsb_is_send_app. simpl.
  rewrite orb_false_r. induction (_entries w) as [| e rest IH]; simpl; auto.
Qed.

Lemma setter_events_send
    (outcome : option exn) (w : Watcher) (new_entries : list Entry) :
  existsb is_send (setter_events repr_str outcome w new_entries)
  = notifies w new_entries.
Proof.
  unfold setter_events, notify_events.
  destruct (notifies w new_entries); reflexivity.
Qed.

End Runs.

(** ** One poll *)

Section Cycle.

Variable repr_str : string -> string.
Variable strftime : Z -> string.

Lemma cycle_read_fails (a : Answers) (w : Watcher) (tr : list event) (e : exn) :
  fst (_find_entries (page a) (w, tr)) = Raise e ->
  cycle repr_str strftime a (w, tr) = (Raise e, (w, tr ++ [EvGet (_url w)])%list).
Proof.
  intros H. unfold cycle, bind.
  pose proof (_find_entries_state (page a) w tr) as Hst.
  destruct (_find_entries (page a) (w, tr)) as [r st1]. simpl in H, Hst.
  subst. reflexivity.
Qed.

(** A poll whose read succeeds, run to its end. *)
Lemma cycle_run (a : Answers) (w : Watcher) (tr : list event) (found : list Entry) :
  fst (_find_entries (page a) (w, tr)) = Ok found ->
  cycle repr_str strftime a (w, tr)
  = let tr1 := (tr ++ [EvGet (_url w)])%list in
    let evs := setter_events repr_str (send_outcome a) w found in
    match (if notifies w found then send_outcome a else None) with
    | Some e => (Raise e, (w, tr1 ++ evs)%list)
    | None =>
        let w' := with_entries w found in
        let tr2 := ((tr1 ++ evs) ++ print_events repr_str strftime w' (now a))%list in
        if (sleep w <? 0)%Z
        then (Raise ValueError, (w', tr2))
        else (Ok tt, (w', tr2 ++ [EvSleep (sleep w)])%list)
    end.
Proof.
  intros H. unfold cycle, bind.
  pose proof (_find_entries_state (page a) w tr) as Hst.
  destruct (_find_entries (page a) (w, tr)) as [r st1]. simpl in H, Hst.
  subst r st1. rewrite entries_setter_run.
  cbv zeta. unfold setter_events.
  destruct (notifies w found) eqn:Hn.
  - destruct (send_outcome a) as [e |]; [reflexivity |].
    rewrite _print_entries_run. unfold get_self, time_sleep, emit, raise.
    cbn [fst snd with_entries sleep].
    destruct (sleep w <? 0)%Z; reflexivity.
  - rewrite _print_entries_run. unfold get_self, time_sleep, emit, raise.
    cbn [fst snd with_entries sleep]. rewrite app_nil_r.
    destruct (sleep w <? 0)%Z; reflexivity.
Qed.

(** The events a poll whose read succeeds adds to the trace. *)
Lemma cycle_trace (a : Answers) (w : Watcher) (tr : list event) (found : list Entry) :
  fst (_find_entries (page a) (w, tr)) = Ok found ->
  exists tail,
    snd (snd (cycle repr_str strftime a (w, tr)))
    = (tr ++ (EvGet (_url w) :: setter_events repr_str (send_outcome a) w found)
          ++ tail)%list
    /\ existsb is_send tail = false.
Proof.
  intros H. rewrite (cycle_run a w tr found H). cbv zeta.
  destruct (if notifies w found then send_outcome a else None) as [e |].
  - exists []. split; [| reflexivity].
    cbn [snd]. rewrite app_nil_r, <- app_assoc. reflexivity.
  - destruct (sleep w <? 0)%Z.
    + exists (print_events repr_str strftime (with_entries w found) (now a)).
      split; [| apply print_events_no_send].
      cbn [snd]. rewrite <- !app_assoc. reflexivity.
    + exists (print_events repr_str strftime (with_entries w found) (now a)
              ++ [EvSleep (sleep w)])%list.
      split.
      * cbn [snd]. rewrite <- !app_assoc. reflexivity.
      * rewrite existsb_is_send_app, print_events_no_send. reflexivity.
Qed.

End Cycle.

(** ** The notification *)

(** C2, as the code has it: with a recipient set, the text handed to the
    send is the header, then for each new entry one line made of two spaces,
    a dash, a space, the generated representation of the entry and a line
    feed, then an empty line and the address of the tracker.  The
    representation is [Entry(date=..., location=..., message=...)] with the
    [repr] of each field. *)
Theorem notify_message_layout :
  forall (repr_str : string -> string) (outcome : option exn)
         (added : list Entry) (w : Watcher) (tr : list event),
    truthy (recipient w) = true ->
    exists phone_no,
      recipient w = Some phone_no
      /\ snd (snd (_notify repr_str outcome added (w, tr)))
         = (tr ++ EvPrint "Sending notification..."
               :: EvSend phone_no
                    (("Update in your delivery!" ++ PyStr.nl ++ PyStr.nl)
                       ++ entry_lines repr_str added
                       ++ (PyStr.nl ++ "URL: " ++ _url w))
                    20
               :: match outcome with
                  | Some _ => []
                  | None => [EvPrint "Notification sent..."; EvSleep 3]
                  end)%list
      /\ (forall e rest,
            entry_lines repr_str (e :: rest)
            = ("  - " ++ Entry_repr repr_str e ++ PyStr.nl) ++ entry_lines repr_str rest)
      /\ (forall e,
            Entry_repr repr_str e
            = "Entry(date=" ++ repr_str (date e)
                ++ ", location=" ++ repr_str (location e)
                ++ ", message=" ++ repr_str (message e) ++ ")").
Proof.
  intros repr_str outcome added w tr H.
  exists (phone_of w). destruct (truthy_phone w H) as [Hr _].
  split; [assumption |]. split; [| split; reflexivity].
  rewrite (_notify_set repr_str outcome added w tr H). reflexivity.
Qed.

Lemma notify_message_layout_witness :
  exists phone_no,
    recipient Sample.watcher = Some phone_no
    /\ In (EvSend phone_no
             (("Update in your delivery!" ++ PyStr.nl ++ PyStr.nl)
                ++ ("  - Entry(date='D1 T1', location='L1', message='M1')" ++ PyStr.nl)
                ++ (PyStr.nl ++ "URL: https://apps.chazki.com/tracker/ABC"))
             20)
          (snd (snd (_notify PyStr.repr None [Sample.e1] (Sample.watcher, [])))).
Proof.
  destruct (notify_message_layout PyStr.repr None [Sample.e1] Sample.watcher []
              eq_refl) as (phone_no & Hr & Htr & _).
  exists phone_no. split; [assumption |].
  rewrite Htr. right. left. reflexivity.
Defined.

(** C2, as the claim has it, fails: the line of an entry is not the three
    fields with a separator between them, whatever the separator. *)
Lemma entry_shape_counterexample :
  Entry_repr PyStr.repr Sample.e1
  = "Entry(date='D1 T1', location='L1', message='M1')"
  /\ ~ (exists sep, Entry_repr PyStr.repr Sample.e1 = entry_shape_spec sep Sample.e1).
Proof.
  split; [reflexivity |].
  intros [sep H]. cbn in H. discriminate H.
Qed.

(** ** The poll *)

(** C3: in every poll the send is called exactly when the read returned a
    list, some entry of it was added and the recipient is set.  When nothing
    was added or the recipient is unset or empty, the setter returns normally
    and leaves no event: the missing recipient is no error. *)
Theorem send_iff_added_and_recipient :
  forall (repr_str : string -> string) (strftime : Z -> string)
         (a : Answers) (w : Watcher) (tr : list event),
    exists delta,
      snd (snd (cycle repr_str strftime a (w, tr))) = (tr ++ delta)%list
      /\ (existsb is_send delta = true <->
            exists found,
              fst (_find_entries (page a) (w, tr)) = Ok found
              /\ added_loop (_entries w) found <> []
              /\ truthy (recipient w) = true)
      /\ (forall found tr',
            added_loop (_entries w) found = [] \/ truthy (recipient w) = false ->
            entries_setter repr_str (send_outcome a) found (w, tr')
            = (Ok tt, (with_entries w found, tr'))).
Proof.
  intros repr_str strftime a w tr.
  assert (forall found tr',
            added_loop (_entries w) found = [] \/ truthy (recipient w) = false ->
            entries_setter repr_str (send_outcome a) found (w, tr')
            = (Ok tt, (with_entries w found, tr'))) as Hskip.
  { intros found tr' Hno. rewrite entries_setter_run.
    apply notifies_false in Hno. rewrite Hno. reflexivity. }
  destruct (fst (_find_entries (page a) (w, tr))) as [found | e] eqn:Hf.
  - destruct (cycle_trace repr_str strftime a w tr found Hf) as (tail & Htr & Htail).
    eexists. split; [exact Htr |]. split; [| exact Hskip].
    rewrite existsb_is_send_app. cbn [existsb is_send orb].
    rewrite setter_events_send, Htail, orb_false_r, notifies_true.
    split.
    + intros H. exists found. split; [reflexivity | exact H].
    + intros (found' & Heq & H). injection Heq as <-. exact H.
  - exists [EvGet (_url w)]. split; [| split; [| exact Hskip]].
    + rewrite (cycle_read_fails repr_str strftime a w tr e Hf). reflexivity.
    + split; [discriminate |]. intros (found & Heq & _). discriminate Heq.
Qed.

Lemma send_iff_added_and_recipient_witness :
  exists delta,
    snd (snd (cycle PyStr.repr Sample.strftime Sample.answers (Sample.watcher, [])))
    = delta
    /\ existsb is_send delta = true.
Proof.
  destruct (send_iff_added_and_recipient PyStr.repr Sample.strftime
              Sample.answers Sample.watcher [])
    as (delta & Htr & Hiff & _).
  exists delta. split; [exact Htr |].
  apply Hiff. exists [Sample.e1; Sample.e2].
  split; [reflexivity |]. split; [discriminate | reflexivity].
Defined.

(** C4: when a poll completes, the entries the watcher holds are exactly
    the list the read returned; nothing of the previous list is kept and the
    added entries play no part. *)
Theorem state_replaced_after_cycle :
  forall (repr_str : string -> string) (strftime : Z -> string)
         (a : Answers) (w : Watcher) (tr : list event) (st' : State),
    cycle repr_str strftime a (w, tr) = (Ok tt, st') ->
    exists found,
      fst (_find_entries (page a) (w, tr)) = Ok found
      /\ _entries (fst st') = found
      /\ fst st' = with_entries w found.
Proof.
  intros repr_str strftime a w tr st' H.
  destruct (fst (_find_entries (page a) (w, tr))) as [found | e] eqn:Hf.
  - exists found. split; [reflexivity |].
    rewrite (cycle_run repr_str strftime a w tr found Hf) in H. cbv zeta in H.
    destruct (if notifies w found then send_outcome a else None); [discriminate |].
    destruct (sleep w <? 0)%Z; [discriminate |].
    injection H as <-. split; reflexivity.
  - rewrite (cycle_read_fails repr_str strftime a w tr e Hf) in H. discriminate.
Qed.

Lemma state_replaced_after_cycle_witness :
  exists found,
    fst (_find_entries (page Sample.answers) (Sample.watcher, [])) = Ok found
    /\ _entries (fst (snd (cycle PyStr.repr Sample.strftime Sample.answers
                             (Sample.watcher, []))))
       = found
    /\ fst (snd (cycle PyStr.repr Sample.strftime Sample.answers (Sample.watcher, [])))
       = with_entries Sample.watcher found.
Proof.
  apply (state_replaced_after_cycle PyStr.repr Sample.strftime Sample.answers
           Sample.watcher []).
  reflexivity.
Defined.

(** C5: a new watcher holds no entry, so on the first poll every entry read
    is added; with a recipient set and a read that is not empty, the send is
    called with a message that lists all of them. *)
Theorem first_cycle_adds_everything :
  forall (repr_str : string -> string) (code : string) (sleep : Z)
         (phone_no : string) (w : Watcher) (outcome : option exn)
         (current : list Entry) (tr : list event),
    current <> [] ->
    Watcher_init code sleep (Some phone_no) = Ok w ->
    phone_no <> "" ->
    added_loop [] current = current
    /\ added_loop (_entries w) current = current
    /\ In (EvSend phone_no (notify_msg repr_str (_url w) current) 20)
          (snd (snd (entries_setter repr_str outcome current (w, tr)))).
Proof.
  intros repr_str code sleep phone_no w outcome current tr Hne Hinit Hphone.
  assert (added_loop [] current = current) as Hall.
  { rewrite added_loop_filter. simpl.
    induction current as [| e rest IH]; simpl; [reflexivity |].
    destruct rest as [| e' rest'].
    - reflexivity.
    - f_equal. apply IH. discriminate. }
  assert (_entries w = [] /\ recipient w = Some phone_no) as [He Hrec].
  { unfold Watcher_init in Hinit.
    destruct (timedelta_ok sleep); [| discriminate].
    injection Hinit as <-. split; reflexivity. }
  rewrite He. split; [assumption |]. split; [assumption |].
  assert (notifies w current = true) as Hn.
  { apply notifies_true. rewrite He, Hall, Hrec. split; [assumption |].
    apply negb_true_iff. now apply String.eqb_neq. }
  rewrite entries_setter_run, Hn. unfold setter_events. rewrite Hn, He, Hall.
  unfold notify_events, phone_of. rewrite Hrec.
  destruct outcome; cbn [snd]; apply in_or_app; right; right; left; reflexivity.
Qed.

Lemma first_cycle_adds_everything_witness :
  added_loop [] [Sample.e1; Sample.e2] = [Sample.e1; Sample.e2]
  /\ In (EvSend "+5491100000000"
           (notify_msg PyStr.repr "https://apps.chazki.com/tracker/ABC"
              [Sample.e1; Sample.e2]) 20)
        (snd (snd (entries_setter PyStr.repr None [Sample.e1; Sample.e2]
                     (Sample.watcher, [])))).
Proof.
  destruct (first_cycle_adds_everything PyStr.repr "ABC" 300 "+5491100000000"
              Sample.watcher None [Sample.e1; Sample.e2] [])
    as (Hall & _ & Hsend).
  - discriminate.
  - reflexivity.
  - discriminate.
  - split; [exact Hall | exact Hsend].
Defined.

(** C6: when the watcher holds the same entries as the read returns, in any
    order, nothing is added: the setter sends nothing and returns normally.
    A list compared with itself adds nothing, so setting the same list a
    second time changes nothing at all. *)
Theorem unchanged_entries_add_nothing :
  forall (repr_str : string -> string) (prior current : list Entry)
         (o1 o2 : option exn) (w : Watcher) (tr : list event),
    _entries w = prior ->
    Permutation prior current ->
    added_loop prior current = []
    /\ added_loop current current = []
    /\ entries_setter repr_str o1 current (w, tr)
       = (Ok tt, (with_entries w current, tr))
    /\ entries_setter repr_str o2 current (with_entries w current, tr)
       = (Ok tt, (with_entries w current, tr)).
Proof.
  intros repr_str prior current o1 o2 w tr Hw Hperm.
  assert (added_loop prior current = []) as H1.
  { apply added_loop_nil_iff. intros e He.
    apply Permutation_in with (l := current); [now apply Permutation_sym | assumption]. }
  assert (added_loop current current = []) as H2.
  { apply added_loop_nil_iff. apply incl_refl. }
  split; [assumption |]. split; [assumption |]. split.
  - rewrite entries_setter_run. unfold notifies. rewrite Hw, H1. reflexivity.
  - rewrite entries_setter_run. unfold notifies. cbn [with_entries _entries].
    rewrite H2. reflexivity.
Qed.

Lemma unchanged_entries_add_nothing_witness :
  added_loop [Sample.e1; Sample.e2] [Sample.e2; Sample.e1] = []
  /\ entries_setter PyStr.repr None [Sample.e2; Sample.e1]
       (with_entries Sample.watcher [Sample.e1; Sample.e2], [])
     = (Ok tt, (with_entries Sample.watcher [Sample.e2; Sample.e1], [])).
Proof.
  destruct (unchanged_entries_add_nothing PyStr.repr
              [Sample.e1; Sample.e2] [Sample.e2; Sample.e1] None None
              (with_entries Sample.watcher [Sample.e1; Sample.e2]) [])
    as (H1 & _ & H3 & _).
  - reflexivity.
  - apply perm_swap.
  - split; [exact H1 | exact H3].
Defined.

(** C9: the send comes before the assignment.  When entries were added, the
    recipient is set and the send raises, the setter ends with that
    exception and the watcher still holds the previous entries; the same
    holds for the poll and for the loop around it. *)
Theorem send_failure_keeps_state :
  forall (repr_str : string -> string) (strftime : Z -> string)
         (a : Answers) (rest : list Answers) (e : exn)
         (w : Watcher) (tr : list event) (found : list Entry),
    fst (_find_entries (page a) (w, tr)) = Ok found ->
    send_outcome a = Some e ->
    added_loop (_entries w) found <> [] ->
    truthy (recipient w) = true ->
    (forall tr',
       entries_setter repr_str (Some e) found (w, tr')
       = (Raise e,
          (w, tr' ++ [EvPrint "Sending notification...";
                      EvSend (phone_of w)
                        (notify_msg repr_str (_url w) (added_loop (_entries w) found))
                        20])%list))
    /\ fst (cycle repr_str strftime a (w, tr)) = Raise e
    /\ fst (snd (cycle repr_str strftime a (w, tr))) = w
    /\ fst (watch repr_str strftime (a :: rest) (w, tr)) = Raise e
    /\ _entries (fst (snd (watch repr_str strftime (a :: rest) (w, tr)))) = _entries w.
Proof.
  intros repr_str strftime a rest e w tr found Hf Hout Hadd Hr.
  assert (notifies w found = true) as Hn by (apply notifies_true; split; assumption).
  assert (cycle repr_str strftime a (w, tr)
          = (Raise e,
             (w, (tr ++ [EvGet (_url w)])
                   ++ setter_events repr_str (Some e) w found)%list)) as Hc.
  { rewrite (cycle_run repr_str strftime a w tr found Hf). cbv zeta.
    rewrite Hn, Hout. reflexivity. }
  split; [| split; [| split; [| split]]].
  - intros tr'. rewrite entries_setter_run, Hn.
    unfold setter_events. rewrite Hn. unfold notify_events.
    rewrite app_nil_r. reflexivity.
  - rewrite Hc. reflexivity.
  - rewrite Hc. reflexivity.
  - cbn [watch]. unfold bind. rewrite Hc. reflexivity.
  - cbn [watch]. unfold bind. rewrite Hc. reflexivity.
Qed.

Lemma send_failure_keeps_state_witness :
  fst (cycle PyStr.repr Sample.strftime Sample.failing_send (Sample.watcher, []))
  = Raise (SendError "no session")
  /\ fst (snd (cycle PyStr.repr Sample.strftime Sample.failing_send (Sample.watcher, [])))
     = Sample.watcher.
Proof.
  destruct (send_failure_keeps_state PyStr.repr Sample.strftime
              Sample.failing_send [] (SendError "no session") Sample.watcher []
              [Sample.e1; Sample.e2])
    as (_ & H1 & H2 & _).
  - reflexivity.
  - reflexivity.
  - discriminate.
  - reflexivity.
  - split; [exact H1 | exact H2].
Defined.

(** ** More on the page reader *)

Lemma row_ok_or_short (columns : Row) : row_ok columns \/ short_row columns.
Proof.
  unfold row_ok, short_row.
  destruct columns as [| c0 [| c1 [| c2 [| c3 rest]]]]; simpl;
    first [left; left; reflexivity | left; right; lia | right; lia].
Qed.

Lemma short_row_not_ok (columns : Row) : short_row columns -> ~ row_ok columns.
Proof.
  unfold row_ok, short_row. intros H [-> | H']; simpl in *; lia.
Qed.

Lemma rows_ok_or_short (rows : list Row) :
  Forall row_ok rows \/ Exists short_row rows.
Proof.
  induction rows as [| r rest IH]; [left; constructor |].
  destruct (row_ok_or_short r) as [Hr | Hr].
  - destruct IH as [IH | IH]; [left; constructor; assumption | right].
    apply Exists_cons_tl. assumption.
  - right. apply Exists_cons_hd. assumption.
Qed.

Lemma rows_ok_not_short (rows : list Row) :
  Forall row_ok rows -> ~ Exists short_row rows.
Proof.
  intros Hok Hex. apply Exists_exists in Hex. destruct Hex as (r & Hin & Hs).
  rewrite Forall_forall in Hok. exact (short_row_not_ok r Hs (Hok r Hin)).
Qed.

Lemma parse_rows_some_short (rows : list Row) (acc : list Entry) :
  Exists short_row rows -> parse_rows rows acc = Raise IndexError.
Proof.
  intros H. revert acc.
  induction rows as [| r rest IH]; intros acc; [inversion H |].
  destruct (row_ok_or_short r) as [Hr | Hr].
  - assert (Exists short_row rest) as Hrest.
    { inversion H; subst; [| assumption].
      exfalso. eapply short_row_not_ok; eassumption. }
    cbn -[parse_columns]. destruct r as [| c cs]; [apply IH; assumption |].
    destruct Hr as [Hr | Hr]; [discriminate |].
    rewrite (parse_columns_ok (c :: cs) Hr). apply IH; assumption.
  - apply (parse_rows_short [] rest r acc); [constructor | exact Hr].
Qed.

Lemma _find_entries_exn (page : Page) (w : Watcher) (tr : list event) (e : exn) :
  fst (_find_entries page (w, tr)) = Raise e ->
  e = TimeoutException \/ e = IndexError.
Proof.
  destruct page as [| rows others].
  { intros H. left. injection H as <-. reflexivity. }
  destruct rows as [| r rest].
  { intros H. left. injection H as <-. reflexivity. }
  rewrite _find_entries_rows by discriminate. cbn [fst].
  destruct (rows_ok_or_short (r :: rest)) as [Hok | Hbad].
  - rewrite (parse_rows_ok _ [] Hok). discriminate.
  - rewrite (parse_rows_some_short _ [] Hbad). intros H. right.
    injection H as <-. reflexivity.
Qed.

(** X1: the reader returns a list exactly when the page has an element with
    id [logs], the first such element has a row, and every row of it has no
    cell or at least four; the list is then the entries of the rows with
    cells, in order.  Later elements with the same id are not read. *)
Theorem find_entries_ok_iff :
  forall (page : Page) (w : Watcher) (tr : list event) (es : list Entry),
    fst (_find_entries page (w, tr)) = Ok es <->
    exists rows others,
      page = rows :: others
      /\ rows <> []
      /\ Forall row_ok rows
      /\ es = map entry_of_row (filter has_cells rows).
Proof.
  intros page w tr es. split.
  - intros H. destruct page as [| rows others]; [discriminate H |].
    destruct rows as [| r rest]; [discriminate H |].
    exists (r :: rest), others. split; [reflexivity |]. split; [discriminate |].
    rewrite _find_entries_rows in H by discriminate. cbn [fst] in H.
    destruct (rows_ok_or_short (r :: rest)) as [Hok | Hbad].
    + split; [assumption |]. rewrite (parse_rows_ok _ [] Hok) in H.
      injection H as <-. reflexivity.
    + rewrite (parse_rows_some_short _ [] Hbad) in H. discriminate H.
  - intros (rows & others & -> & Hne & Hok & ->).
    rewrite _find_entries_rows by assumption. cbn [fst].
    rewrite (parse_rows_ok _ [] Hok). reflexivity.
Qed.

(** X2: the reader fails in two ways only.  It times out exactly when the
    page has no element with id [logs] or the first one has no row, and it
    ends in [IndexError] exactly when the first one has a row of one to three
    cells.  Whatever the result, the browser was sent once to the address of
    the tracker and the watcher is as it was. *)
Theorem find_entries_failures :
  forall (page : Page) (w : Watcher) (tr : list event),
    (fst (_find_entries page (w, tr)) = Raise TimeoutException <-> hd [] page = [])
    /\ (fst (_find_entries page (w, tr)) = Raise IndexError <->
          Exists short_row (hd [] page))
    /\ (forall e, fst (_find_entries page (w, tr)) = Raise e ->
          e = TimeoutException \/ e = IndexError)
    /\ snd (_find_entries page (w, tr)) = (w, (tr ++ [EvGet (_url w)])%list).
Proof.
  intros page w tr.
  split; [| split; [| split; [| apply _find_entries_state]]].
  - destruct page as [| rows others]; [split; reflexivity |].
    destruct rows as [| r rest]; [split; reflexivity |].
    rewrite _find_entries_rows by discriminate. cbn [fst hd].
    split; [| discriminate].
    destruct (rows_ok_or_short (r :: rest)) as [Hok | Hbad].
    + rewrite (parse_rows_ok _ [] Hok). discriminate.
    + rewrite (parse_rows_some_short _ [] Hbad). discriminate.
  - destruct page as [| rows others].
    { split; [discriminate | intros H; inversion H]. }
    destruct rows as [| r rest].
    { split; [discriminate | intros H; inversion H]. }
    rewrite _find_entries_rows by discriminate. cbn [fst hd].
    destruct (rows_ok_or_short (r :: rest)) as [Hok | Hbad].
    + rewrite (parse_rows_ok _ [] Hok). split; [discriminate |].
      intros H. exfalso. exact (rows_ok_not_short _ Hok H).
    + rewrite (parse_rows_some_short _ [] Hbad). split; auto.
  - intros e. apply _find_entries_exn.
Qed.

(** ** More on one poll *)

Lemma count_sends_app (xs ys : list event) :
  count_sends (xs ++ ys) = count_sends xs + count_sends ys.
Proof.
  unfold count_sends. now rewrite filter_app, length_app.
Qed.

Lemma count_sends_existsb (evs : list event) :
  existsb is_send evs = false -> count_sends evs = 0.
Proof.
  unfold count_sends. induction evs as [| ev rest IH]; simpl; [reflexivity |].
  destruct (is_send ev); simpl; [discriminate | assumption].
Qed.

Lemma get_urls_app (xs ys : list event) :
  get_urls (xs ++ ys) = (get_urls xs ++ get_urls ys)%list.
Proof.
  unfold get_urls. apply flat_map_app.
Qed.

Lemma sent_msgs_app (xs ys : list event) :
  sent_msgs (xs ++ ys) = (sent_msgs xs ++ sent_msgs ys)%list.
Proof.
  unfold sent_msgs. apply flat_map_app.
Qed.

Lemma sent_msgs_none (evs : list event) :
  count_sends evs = 0 -> sent_msgs evs = [].
Proof.
  unfold count_sends, sent_msgs.
  induction evs as [| ev rest IH]; [reflexivity |].
  destruct ev; cbn; intros H; try (apply IH; exact H). discriminate H.
Qed.

Section Polls.

Variable repr_str : string -> string.
Variable strftime : Z -> string.

Lemma print_events_quiet (w : Watcher) (curdate : Z) :
  count_sends (print_events repr_str strftime w curdate) = 0
  /\ get_urls (print_events repr_str strftime w curdate) = []
  /\ sent_msgs (print_events repr_str strftime w curdate) = [].
Proof.
  split; [apply count_sends_existsb, print_events_no_send |].
  unfold print_events. rewrite get_urls_app, get_urls_app, sent_msgs_app, sent_msgs_app.
  cbn [get_urls sent_msgs flat_map app].
  split; induction (_entries w) as [| e rest IH]; simpl; auto.
Qed.

Lemma setter_events_reading
    (outcome : option exn) (w : Watcher) (new_entries : list Entry) :
  count_sends (setter_events repr_str outcome w new_entries)
  = (if notifies w new_entries then 1 else 0)
  /\ get_urls (setter_events repr_str outcome w new_entries) = []
  /\ sent_msgs (setter_events repr_str outcome w new_entries)
     = if notifies w new_entries
       then [notify_msg repr_str (_url w) (added_loop (_entries w) new_entries)]
       else [].
Proof.
  unfold setter_events, notify_events.
  destruct (notifies w new_entries); [| repeat split].
  destruct outcome; repeat split.
Qed.

(** The four ways a poll can go. *)
Lemma cycle_cases (a : Answers) (w : Watcher) (tr : list event) :
  (exists e,
     fst (_find_entries (page a) (w, tr)) = Raise e
     /\ cycle repr_str strftime a (w, tr)
        = (Raise e, (w, tr ++ [EvGet (_url w)])%list))
  \/ (exists found e,
        fst (_find_entries (page a) (w, tr)) = Ok found
        /\ notifies w found = true
        /\ send_outcome a = Some e
        /\ cycle repr_str strftime a (w, tr)
           = (Raise e,
              (w, tr ++ EvGet (_url w)
                     :: setter_events repr_str (send_outcome a) w found)%list))
  \/ (exists found,
        fst (_find_entries (page a) (w, tr)) = Ok found
        /\ (notifies w found = true -> send_outcome a = None)
        /\ (sleep w < 0)%Z
        /\ cycle repr_str strftime a (w, tr)
           = (Raise ValueError,
              (with_entries w found,
               tr ++ EvGet (_url w)
                  :: setter_events repr_str (send_outcome a) w found
                  ++ print_events repr_str strftime (with_entries w found) (now a))%list))
  \/ (exists found,
        fst (_find_entries (page a) (w, tr)) = Ok found
        /\ (notifies w found = true -> send_outcome a = None)
        /\ (0 <= sleep w)%Z
        /\ cycle repr_str strftime a (w, tr)
           = (Ok tt,
              (with_entries w found,
               tr ++ EvGet (_url w)
                  :: setter_events repr_str (send_outcome a) w found
                  ++ print_events repr_str strftime (with_entries w found) (now a)
                  ++ [EvSleep (sleep w)])%list)).
Proof.
  destruct (fst (_find_entries (page a) (w, tr))) as [found | e] eqn:Hf.
  - right. rewrite (cycle_run repr_str strftime a w tr found Hf). cbv zeta.
    destruct (notifies w found) eqn:Hn.
    + destruct (send_outcome a) as [e |] eqn:Hs.
      * left. exists found, e. repeat split; try assumption.
        now rewrite <- app_assoc.
      * right. destruct (Z.ltb_spec (sleep w) 0) as [Hneg | Hpos]; [left | right];
          exists found; repeat split; try assumption;
          rewrite <- ?app_assoc; reflexivity.
    + right. destruct (Z.ltb_spec (sleep w) 0) as [Hneg | Hpos]; [left | right];
        exists found; repeat split; try assumption; try congruence;
        rewrite <- ?app_assoc; reflexivity.
  - left. exists e. split; [reflexivity |]. now apply cycle_read_fails.
Qed.

End Polls.



(** X5: what a completed poll does, in order: one visit of the tracker,
    the notification if one is due, the replacement of the held entries by the
    list just read, the printing of that list (not of the added entries and
    not of the previous list), and the sleep. *)
Theorem cycle_ok_trace :
  forall (repr_str : string -> string) (strftime : Z -> string)
         (a : Answers) (w : Watcher) (tr : list event) (st' : State),
    cycle repr_str strftime a (w, tr) = (Ok tt, st') ->
    exists found,
      fst (_find_entries (page a) (w, tr)) = Ok found
      /\ fst st' = with_entries w found
      /\ snd st'
         = (tr ++ EvGet (_url w)
               :: setter_events repr_str None w found
               ++ (EvClear
                   :: EvPrint ("URL: " ++ _url w ++ PyStr.nl)
                   :: map (fun e => EvPrint (Entry_repr repr_str e)) found
                   ++ [EvPrint "";
                       EvPrint ("Last refresh at: " ++ strftime (now a));
                       EvPrint ("Next refresh at "
                                  ++ strftime (now a + sleep w)%Z)])
               ++ [EvSleep (sleep w)])%list.
Proof.
  intros repr_str strftime a w tr st' H.
  destruct (cycle_cases repr_str strftime a w tr)
    as [(e & Hf & Hc) | [(found & e & Hf & Hn & Hs & Hc)
       | [(found & Hf & Hs & Hz & Hc) | (found & Hf & Hs & Hz & Hc)]]];
    rewrite Hc in H; try discriminate.
  injection H as <-. exists found. split; [assumption |]. split; [reflexivity |].
  cbn [snd]. unfold setter_events.
  destruct (notifies w found) eqn:Hn; [rewrite (Hs eq_refl) |]; reflexivity.
Qed.

Lemma cycle_ok_trace_witness :
  exists found,
    fst (_find_entries (page Sample.answers) (Sample.watcher, [])) = Ok found
    /\ In (EvPrint "Entry(date='D2 T2', location='L2', message='M2')")
          (snd (snd (cycle PyStr.repr Sample.strftime Sample.answers
                       (Sample.watcher, [])))).
Proof.
  destruct (cycle_ok_trace PyStr.repr Sample.strftime Sample.answers
              Sample.watcher [] _ eq_refl) as (found & Hf & _ & _).
  exists found. split; [exact Hf |].
  vm_compute. do 8 right. left. reflexivity.
Defined.



(** ** The loop *)

Lemma same_config_refl (w : Watcher) : same_config w w.
Proof.
  repeat split.
Qed.

Lemma same_config_trans (w1 w2 w3 : Watcher) :
  same_config w1 w2 -> same_config w2 w3 -> same_config w1 w3.
Proof.
  unfold same_config. intros (A1 & A2 & A3 & A4) (B1 & B2 & B3 & B4).
  repeat split; congruence.
Qed.

Lemma same_config_with_entries (w : Watcher) (es : list Entry) :
  same_config w (with_entries w es).
Proof.
  repeat split.
Qed.

Section Loop.

Variable repr_str : string -> string.
Variable strftime : Z -> string.

(** What one poll leaves, whatever its result. *)
Lemma cycle_summary (a : Answers) (w : Watcher) (tr : list event) :
  exists w' delta,
    snd (cycle repr_str strftime a (w, tr)) = (w', (tr ++ delta)%list)
    /\ same_config w w'
    /\ count_sends delta <= 1
    /\ (truthy (recipient w) = false -> count_sends delta = 0)
    /\ get_urls delta = [_url w].
Proof.
  assert (forall found outcome,
            count_sends (setter_events repr_str outcome w found) <= 1
            /\ (truthy (recipient w) = false ->
                count_sends (setter_events repr_str outcome w found) = 0)) as Hset.
  { intros found outcome.
    rewrite (proj1 (setter_events_reading repr_str outcome w found)).
    split.
    - destruct (notifies w found); lia.
    - intros Hr. destruct (notifies w found) eqn:Hn; [| reflexivity].
      apply notifies_true in Hn. destruct Hn. congruence. }
  destruct (cycle_cases repr_str strftime a w tr)
    as [(e & Hf & Hc) | [(found & e & Hf & Hn & Hs & Hc)
       | [(found & Hf & Hs & Hz & Hc) | (found & Hf & Hs & Hz & Hc)]]];
    rewrite Hc; cbn [snd].
  - exists w, [EvGet (_url w)]. repeat split; cbn; auto.
  - exists w, (EvGet (_url w) :: setter_events repr_str (send_outcome a) w found).
    destruct (Hset found (send_outcome a)) as [H1 H0].
    destruct (setter_events_reading repr_str (send_outcome a) w found) as (_ & Hu & _).
    split; [reflexivity |]. split; [apply same_config_refl |].
    change (EvGet (_url w) :: setter_events repr_str (send_outcome a) w found)
      with ([EvGet (_url w)] ++ setter_events repr_str (send_outcome a) w found)%list.
    rewrite count_sends_app, get_urls_app, Hu.
    repeat split; cbn; auto.
  - exists (with_entries w found),
      (EvGet (_url w) :: setter_events repr_str (send_outcome a) w found
         ++ print_events repr_str strftime (with_entries w found) (now a))%list.
    destruct (Hset found (send_outcome a)) as [H1 H0].
    destruct (setter_events_reading repr_str (send_outcome a) w found) as (_ & Hu & _).
    destruct (print_events_quiet repr_str strftime (with_entries w found) (now a))
      as (Hp & Hpu & _).
    split; [reflexivity |]. split; [apply same_config_with_entries |].
    change (EvGet (_url w) :: ?x) with ([EvGet (_url w)] ++ x)%list.
    rewrite !count_sends_app, !get_urls_app, Hu, Hp, Hpu.
    repeat split; cbn; auto; try lia.
    intros Hr. rewrite (H0 Hr). reflexivity.
  - exists (with_entries w found),
      (EvGet (_url w) :: setter_events repr_str (send_outcome a) w found
         ++ print_events repr_str strftime (with_entries w found) (now a)
         ++ [EvSleep (sleep w)])%list.
    destruct (Hset found (send_outcome a)) as [H1 H0].
    destruct (setter_events_reading repr_str (send_outcome a) w found) as (_ & Hu & _).
    destruct (print_events_quiet repr_str strftime (with_entries w found) (now a))
      as (Hp & Hpu & _).
    split; [reflexivity |]. split; [apply same_config_with_entries |].
    change (EvGet (_url w) :: ?x) with ([EvGet (_url w)] ++ x)%list.
    rewrite !count_sends_app, !get_urls_app, Hu, Hp, Hpu.
    repeat split; cbn; auto; try lia.
    intros Hr. rewrite (H0 Hr). reflexivity.
Qed.

Lemma watch_cons (a : Answers) (rest : list Answers) (st : State) :
  watch repr_str strftime (a :: rest) st
  = match cycle repr_str strftime a st with
    | (Ok _, st') => watch repr_str strftime rest st'
    | (Raise e, st') => (Raise e, st')
    end.
Proof.
  reflexivity.
Qed.

(** What a run of polls leaves, whatever its result. *)
Lemma watch_summary (world : list Answers) (w : Watcher) (tr : list event) :
  exists w' delta,
    snd (watch repr_str strftime world (w, tr)) = (w', (tr ++ delta)%list)
    /\ same_config w w'
    /\ count_sends delta <= length world
    /\ (truthy (recipient w) = false -> count_sends delta = 0)
    /\ (exists n, n <= length world /\ get_urls delta = repeat (_url w) n)
    /\ (fst (watch repr_str strftime world (w, tr)) = Ok tt ->
        get_urls delta = repeat (_url w) (length world)).
Proof.
  revert w tr. induction world as [| a rest IH]; intros w tr.
  - exists w, []. cbn. rewrite app_nil_r.
    repeat split; auto. exists 0. split; [lia | reflexivity].
  - rewrite watch_cons.
    destruct (cycle_summary a w tr) as (w1 & d1 & Hst & Hcfg & Hc1 & Hc0 & Hu).
    destruct (cycle repr_str strftime a (w, tr)) as [[[] | e] st1];
      cbn [snd] in Hst; subst st1.
    + destruct (IH w1 (tr ++ d1)%list)
        as (w2 & d2 & Hst2 & Hcfg2 & Hc2 & Hc02 & (n & Hn & Hu2) & Hok).
      destruct Hcfg as (A1 & A2 & A3 & A4).
      exists w2, (d1 ++ d2)%list. rewrite Hst2, <- app_assoc.
      split; [reflexivity |].
      split; [eapply same_config_trans; [| eassumption]; repeat split; assumption |].
      rewrite count_sends_app, get_urls_app, Hu. cbn [length].
      split; [lia |]. split; [| split].
      * intros Hr. rewrite (Hc0 Hr), Hc02; [reflexivity | congruence].
      * exists (S n). split; [lia |]. rewrite Hu2, A4. reflexivity.
      * intros H. rewrite (Hok H), A4. reflexivity.
    + exists w1, d1. cbn [fst snd length].
      split; [reflexivity |]. split; [assumption |]. split; [lia |].
      split; [assumption |]. split; [| discriminate].
      exists 1. split; [lia | rewrite Hu; reflexivity].
Qed.

End Loop.

Lemma watch_app_run
    (repr_str : string -> string) (strftime : Z -> string)
    (xs ys : list Answers) (st : State) :
  watch repr_str strftime (xs ++ ys) st
  = match watch repr_str strftime xs st with
    | (Ok _, st') => watch repr_str strftime ys st'
    | (Raise e, st') => (Raise e, st')
    end.
Proof.
  revert st. induction xs as [| a rest IH]; intros st.
  - reflexivity.
  - cbn [app]. rewrite !watch_cons.
    destruct (cycle repr_str strftime a st) as [[[] | e] st1]; [apply IH | reflexivity].
Qed.


(** X8: whatever the pages and the sends do, the loop never changes the
    code, the interval, the recipient or the address of the watcher, and it
    only adds to what the outside world was asked. *)
Theorem watch_keeps_config :
  forall (repr_str : string -> string) (strftime : Z -> string)
         (world : list Answers) (w : Watcher) (tr : list event),
    same_config w (fst (snd (watch repr_str strftime world (w, tr))))
    /\ exists delta,
         snd (snd (watch repr_str strftime world (w, tr))) = (tr ++ delta)%list.
Proof.
  intros repr_str strftime world w tr.
  destruct (watch_summary repr_str strftime world w tr)
    as (w' & delta & Hst & Hcfg & _).
  rewrite Hst. split; [assumption | exists delta; reflexivity].
Qed.

(** X9: a watcher whose recipient is unset or empty never calls the send,
    however many polls run and whatever they read. *)
Theorem watch_without_recipient_never_sends :
  forall (repr_str : string -> string) (strftime : Z -> string)
         (world : list Answers) (w : Watcher) (tr : list event),
    truthy (recipient w) = false ->
    exists delta,
      snd (snd (watch repr_str strftime world (w, tr))) = (tr ++ delta)%list
      /\ count_sends delta = 0
      /\ sent_msgs delta = [].
Proof.
  intros repr_str strftime world w tr Hr.
  destruct (watch_summary repr_str strftime world w tr)
    as (w' & delta & Hst & _ & _ & H0 & _).
  exists delta. rewrite Hst. split; [reflexivity |].
  split; [exact (H0 Hr) | exact (sent_msgs_none delta (H0 Hr))].
Qed.

Lemma watch_without_recipient_never_sends_witness :
  exists delta,
    snd (snd (watch PyStr.repr Sample.strftime [Sample.answers; Sample.answers]
                (mkWatcher "ABC" 300 (Some "") []
                   "https://apps.chazki.com/tracker/ABC", [])))
    = delta
    /\ count_sends delta = 0.
Proof.
  destruct (watch_without_recipient_never_sends PyStr.repr Sample.strftime
              [Sample.answers; Sample.answers]
              (mkWatcher "ABC" 300 (Some "") []
                 "https://apps.chazki.com/tracker/ABC") [] eq_refl)
    as (delta & Htr & H0 & _).
  exists delta. split; [exact Htr | exact H0].
Defined.

(** X10: each poll visits the tracker once, at the address of the watcher,
    and calls the send at most once.  A run over [n] answers makes at most
    [n] visits and [n] sends, and exactly [n] visits when it completes. *)
Theorem watch_one_visit_one_send_per_poll :
  forall (repr_str : string -> string) (strftime : Z -> string)
         (world : list Answers) (w : Watcher) (tr : list event),
    exists delta,
      snd (snd (watch repr_str strftime world (w, tr))) = (tr ++ delta)%list
      /\ count_sends delta <= length world
      /\ (exists n, n <= length world /\ get_urls delta = repeat (_url w) n)
      /\ (fst (watch repr_str strftime world (w, tr)) = Ok tt ->
          get_urls delta = repeat (_url w) (length world)).
Proof.
  intros repr_str strftime world w tr.
  destruct (watch_summary repr_str strftime world w tr)
    as (w' & delta & Hst & _ & Hc & _ & Hu & Hok).
  exists delta. rewrite Hst. repeat split; assumption.
Qed.






(** ** More on the setter *)

(** X13: entries that are gone from the page are dropped in silence.  When
    every entry read is already held, the setter sends nothing, whatever the
    recipient, and the held entries become the list read, which may be
    shorter. *)
Theorem removed_entries_are_silent :
  forall (repr_str : string -> string) (outcome : option exn)
         (new_entries : list Entry) (w : Watcher) (tr : list event),
    incl new_entries (_entries w) ->
    entries_setter repr_str outcome new_entries (w, tr)
    = (Ok tt, (with_entries w new_entries, tr)).
Proof.
  intros repr_str outcome new_entries w tr H.
  rewrite entries_setter_run.
  assert (notifies w new_entries = false) as Hn.
  { apply notifies_false. left. now apply added_loop_nil_iff. }
  rewrite Hn. reflexivity.
Qed.

Lemma removed_entries_are_silent_witness :
  entries_setter PyStr.repr (Some (SendError "no session")) [Sample.e2]
    (with_entries Sample.watcher [Sample.e1; Sample.e2], [])
  = (Ok tt, (with_entries Sample.watcher [Sample.e2], [])).
Proof.
  apply (removed_entries_are_silent PyStr.repr (Some (SendError "no session"))
           [Sample.e2] (with_entries Sample.watcher [Sample.e1; Sample.e2]) []).
  intros e [<- | []]. right. left. reflexivity.
Defined.

(** X14: the setter remembers one read only.  After it has stored a list,
    an entry of the next list that is missing from the stored one is
    announced, also when the watcher held it before: the message of the second
    call lists the entries of the second list that are not in the first. *)
Theorem setter_compares_with_last_read_only :
  forall (repr_str : string -> string) (o1 o2 : option exn)
         (new1 new2 : list Entry) (w : Watcher) (tr : list event)
         (st1 : State) (e : Entry),
    entries_setter repr_str o1 new1 (w, tr) = (Ok tt, st1) ->
    truthy (recipient w) = true ->
    In e new2 ->
    ~ In e new1 ->
    exists delta,
      snd (snd (entries_setter repr_str o2 new2 st1)) = (snd st1 ++ delta)%list
      /\ sent_msgs delta = [notify_msg repr_str (_url w) (added_loop new1 new2)]
      /\ In e (added_loop new1 new2).
Proof.
  intros repr_str o1 o2 new1 new2 w tr st1 e H1 Hr Hin Hnot.
  assert (In e (added_loop new1 new2)) as Hadd
    by (apply added_loop_In; split; assumption).
  assert (exists tr1, st1 = (with_entries w new1, tr1)) as [tr1 ->].
  { rewrite entries_setter_run in H1.
    destruct (notifies w new1); [destruct o1 |];
      try discriminate; injection H1 as <-; eexists; reflexivity. }
  assert (notifies (with_entries w new1) new2 = true) as Hn.
  { apply notifies_true. cbn [with_entries _entries recipient].
    split; [| assumption]. intros Hnil. rewrite Hnil in Hadd. destruct Hadd. }
  exists (setter_events repr_str o2 (with_entries w new1) new2).
  split; [| split; [| assumption]].
  - rewrite entries_setter_run, Hn. destruct o2; reflexivity.
  - rewrite (proj2 (proj2 (setter_events_reading repr_str o2 (with_entries w new1) new2))).
    rewrite Hn. reflexivity.
Qed.

Lemma setter_compares_with_last_read_only_witness :
  exists delta,
    snd (snd (entries_setter PyStr.repr None [Sample.e1; Sample.e2]
                (with_entries Sample.watcher [Sample.e2], [])))
    = delta
    /\ sent_msgs delta
       = [notify_msg PyStr.repr "https://apps.chazki.com/tracker/ABC" [Sample.e1]].
Proof.
  destruct (setter_compares_with_last_read_only PyStr.repr None None
              [Sample.e2] [Sample.e1; Sample.e2]
              (with_entries Sample.watcher [Sample.e1; Sample.e2]) []
              (with_entries Sample.watcher [Sample.e2], []) Sample.e1)
    as (delta & Htr & Hmsg & _).
  - reflexivity.
  - reflexivity.
  - left. reflexivity.
  - intros [H | []]. discriminate H.
  - exists delta. split; [exact Htr | exact Hmsg].
Defined.

(** X15: when a run of polls completes, the watcher holds what the last
    poll read. *)
Theorem watch_ok_holds_last_read :
  forall (repr_str : string -> string) (strftime : Z -> string)
         (xs : list Answers) (a : Answers) (st st' : State),
    watch repr_str strftime (xs ++ [a]) st = (Ok tt, st') ->
    exists st1 found,
      watch repr_str strftime xs st = (Ok tt, st1)
      /\ fst (_find_entries (page a) st1) = Ok found
      /\ _entries (fst st') = found.
Proof.
  intros repr_str strftime xs a st st' H.
  rewrite watch_app_run in H.
  destruct (watch repr_str strftime xs st) as [[[] | e] [w1 tr1]]; [| discriminate].
  exists (w1, tr1). rewrite watch_cons in H.
  destruct (cycle_cases repr_str strftime a w1 tr1)
    as [(e & Hf & Hc) | [(found & e & Hf & Hn & Hs & Hc)
       | [(found & Hf & Hs & Hz & Hc) | (found & Hf & Hs & Hz & Hc)]]];
    rewrite Hc in H; try discriminate.
  cbn [watch ret] in H. injection H as <-.
  exists found. repeat split. assumption.
Qed.

Lemma watch_ok_holds_last_read_witness :
  exists st1 found,
    watch PyStr.repr Sample.strftime [Sample.answers] (Sample.watcher, [])
    = (Ok tt, st1)
    /\ fst (_find_entries (page Sample.answers) st1) = Ok found
    /\ _entries (fst (snd (watch PyStr.repr Sample.strftime
                             [Sample.answers; Sample.answers] (Sample.watcher, []))))
       = found.
Proof.
  apply (watch_ok_holds_last_read PyStr.repr Sample.strftime [Sample.answers]
           Sample.answers (Sample.watcher, [])).
  reflexivity.
Defined.

(** ** The entry point *)

Lemma dict_get_DRIVERS (browser : string) :
  (browser = "chrome" /\ dict_get DRIVERS browser = Some _chrome_driver)
  \/ (browser = "firefox" /\ dict_get DRIVERS browser = Some _firefox_driver)
  \/ (browser <> "chrome" /\ browser <> "firefox" /\ dict_get DRIVERS browser = None).
Proof.
  unfold DRIVERS, dict_get.
  destruct (String.eqb_spec "chrome" browser) as [<- | Hc]; [left; auto |].
  destruct (String.eqb_spec "firefox" browser) as [<- | Hf]; [right; left; auto |].
  right. right. repeat split; congruence.
Qed.

Lemma Watcher_init_cases (code : string) (sleep : Z) (recipient : option string) :
  (timedelta_ok sleep = true
   /\ Watcher_init code sleep recipient
      = Ok (mkWatcher code sleep recipient []
              ("https://apps.chazki.com/tracker/" ++ code)))
  \/ (timedelta_ok sleep = false
      /\ Watcher_init code sleep recipient = Raise OverflowError).
Proof.
  unfold Watcher_init. destruct (timedelta_ok sleep); [left | right]; split; reflexivity.
Qed.


(** X17: started without a number to notify, [main] never calls the send,
    whatever browser and interval are chosen and whatever the pages show. *)
Theorem main_without_notify_never_sends :
  forall (repr_str : string -> string) (strftime : Z -> string)
         (args : Namespace) (world : list Answers) (r : Res unit) (st : State),
    arg_notify args = "" ->
    snd (main repr_str strftime args world) = MainLoop (r, st) ->
    count_sends (snd st) = 0 /\ sent_msgs (snd st) = [].
Proof.
  intros repr_str strftime args world r st Hn H. unfold main in H.
  assert (forall w, Watcher_init (arg_code args) (arg_timeout args)
                      (Some (arg_notify args)) = Ok w ->
                    MainLoop (watch repr_str strftime world (w, [])) = MainLoop (r, st) ->
                    count_sends (snd st) = 0) as Hloop.
  { intros w Hw Hr. injection Hr as Hr.
    assert (recipient w = Some (arg_notify args)) as Hrec.
    { destruct (Watcher_init_cases (arg_code args) (arg_timeout args)
                  (Some (arg_notify args))) as [(_ & Hi) | (_ & Hi)];
        rewrite Hi in Hw; [| discriminate]. injection Hw as <-. reflexivity. }
    destruct (watch_summary repr_str strftime world w [])
      as (w' & delta & Hst & _ & _ & H0 & _).
    rewrite Hr in Hst. cbn [snd] in Hst. rewrite Hst. cbn [snd app].
    apply H0. rewrite Hrec, Hn. reflexivity. }
  assert (count_sends (snd st) = 0) as Hc.
  { destruct (dict_get_DRIVERS (arg_browser args))
      as [(_ & Hd) | [(_ & Hd) | (_ & _ & Hd)]]; rewrite Hd in H;
      [unfold _chrome_driver in H | unfold _firefox_driver in H | discriminate H];
      destruct (Watcher_init (arg_code args) (arg_timeout args)
                  (Some (arg_notify args))) as [w | e] eqn:Hw;
      cbn [snd] in H; try discriminate H; exact (Hloop w eq_refl H). }
  split; [exact Hc | exact (sent_msgs_none _ Hc)].
Qed.

Lemma main_without_notify_never_sends_witness :
  count_sends
    (snd (snd (watch PyStr.repr Sample.strftime [Sample.answers]
                 (mkWatcher "ABC" 300 (Some "") []
                    "https://apps.chazki.com/tracker/ABC", []))))
  = 0.
Proof.
  refine (proj1 (main_without_notify_never_sends PyStr.repr Sample.strftime
                   (mkNamespace "ABC" "chrome" 300 "" false) [Sample.answers]
                   _ _ eq_refl _)).
  vm_compute. reflexivity.
Defined.

